(** * hello.cpp

    A verification model of [frontend/public/examples/hello.cpp]: the
    entry routine [main] prints a greeting, sums the five numbers of a
    vector with a range-based [for], and prints a string with its length.

    The program is embedded as a transition system.  A configuration holds
    the control point (named after the source line it stands for), the three
    local variables, the hidden iterators of the range-based [for], the
    state of [std::cout] and the parts of the process the program never
    looks at (standard input, command-line arguments).  [main_step] executes
    one statement; [run] iterates it; [main] is the whole execution. *)

From Stdlib Require Import ZArith List String Ascii Bool Lia.
From Stdlib Require Import DecimalString DecimalZ DecimalPos DecimalNat.
Import ListNotations.

Local Open Scope Z_scope.

(** ** The platform and the host process *)

(** What the C++ implementation fixes: the width of [int] and the line
    terminator that the host writes for a newline character of a text
    stream. *)
Record platform : Type := {
  int_bits : Z;
  eol : string
}.

(** What one launch of the program fixes: its command line and its standard
    input ([None] when standard input is closed). *)
Record host : Type := {
  argv : list string;
  stdin : option string
}.

(** ISO C++ requires [int] to have at least 16 bits. *)
Definition conforming (p : platform) : Prop := 16 <= int_bits p.

(** ** The type [int]

    A signed integer of [w] bits.  Signed overflow is undefined behaviour,
    so addition is partial and nothing wraps around. *)
Module Int.

Definition min (w : Z) : Z := - 2 ^ (w - 1).
Definition max (w : Z) : Z := 2 ^ (w - 1) - 1.

Definition fits (w z : Z) : bool := (min w <=? z) && (z <=? max w).

Definition add (w a b : Z) : option Z :=
  if fits w (a + b) then Some (a + b) else None.

End Int.

(** ** [std::cout]

    Characters inserted into the stream wait in its buffer until a flush
    hands them to the host.  [std::endl] inserts a newline character and
    flushes. *)
Module Ostream.

Definition LF : ascii := "010"%char.

Record ostream : Type := {
  pending : string;
  delivered : string
}.

Definition empty : ostream := {| pending := ""; delivered := "" |}.

Definition put (s : string) (o : ostream) : ostream :=
  {| pending := (pending o ++ s)%string; delivered := delivered o |}.

Definition flush (o : ostream) : ostream :=
  {| pending := ""; delivered := (delivered o ++ pending o)%string |}.

(** Decimal formatting of [operator<<(int)] and of
    [operator<<(std::size_t)]. *)
Definition show_int (z : Z) : string := NilZero.string_of_int (Z.to_int z).
Definition show_size (n : nat) : string :=
  NilZero.string_of_uint (Nat.to_uint n).

(** The overloads of [operator<<] that the program uses. *)
Inductive item : Type :=
| Str (s : string)
| Int (z : Z)
| Size (n : nat)
| Endl.

Definition insert (o : ostream) (i : item) : ostream :=
  match i with
  | Str s => put s o
  | Int z => put (show_int z) o
  | Size n => put (show_size n) o
  | Endl => flush (put (String LF "") o)
  end.

(** The host writes its own line terminator for each newline character of a
    text stream. *)
Fixpoint text_mode (eol s : string) : string :=
  match s with
  | EmptyString => EmptyString
  | String a s' =>
      if Ascii.eqb a LF then (eol ++ text_mode eol s')%string
      else String a (text_mode eol s')
  end.

End Ostream.

Import Ostream.

Notation "o << i" := (insert o i) (at level 50, left associativity).

(** ** Configurations *)

(** Control points, named after the lines of hello.cpp.  Line 14 has two:
    [L14] sets up the iterators of the range-based [for], [L14_cond]
    compares them and binds [num]. *)
Inductive label : Type :=
| L07 | L10 | L13 | L14 | L14_cond | L15 | L18 | L21 | L22 | L23 | L25.

Definition label_eqb (a b : label) : bool :=
  match a, b with
  | L07, L07 | L10, L10 | L13, L13 | L14, L14 | L14_cond, L14_cond
  | L15, L15 | L18, L18 | L21, L21 | L22, L22 | L23, L23 | L25, L25 => true
  | _, _ => false
  end.

(** A local variable is [None] outside its lifetime. *)
Record config : Type := {
  pc : label;
  numbers : option (list Z);
  sum : option Z;
  message : option string;
  it_begin : nat;
  it_end : nat;
  num : option Z;
  cout : ostream;
  cin : option string;
  args : list string
}.

Definition goto (l : label) (c : config) : config :=
  {| pc := l; numbers := numbers c; sum := sum c; message := message c;
     it_begin := it_begin c; it_end := it_end c; num := num c;
     cout := cout c; cin := cin c; args := args c |}.

Definition set_numbers (v : option (list Z)) (c : config) : config :=
  {| pc := pc c; numbers := v; sum := sum c; message := message c;
     it_begin := it_begin c; it_end := it_end c; num := num c;
     cout := cout c; cin := cin c; args := args c |}.

Definition set_sum (v : option Z) (c : config) : config :=
  {| pc := pc c; numbers := numbers c; sum := v; message := message c;
     it_begin := it_begin c; it_end := it_end c; num := num c;
     cout := cout c; cin := cin c; args := args c |}.

Definition set_message (v : option string) (c : config) : config :=
  {| pc := pc c; numbers := numbers c; sum := sum c; message := v;
     it_begin := it_begin c; it_end := it_end c; num := num c;
     cout := cout c; cin := cin c; args := args c |}.

Definition set_iterators (b e : nat) (c : config) : config :=
  {| pc := pc c; numbers := numbers c; sum := sum c; message := message c;
     it_begin := b; it_end := e; num := num c;
     cout := cout c; cin := cin c; args := args c |}.

Definition set_num (v : option Z) (c : config) : config :=
  {| pc := pc c; numbers := numbers c; sum := sum c; message := message c;
     it_begin := it_begin c; it_end := it_end c; num := v;
     cout := cout c; cin := cin c; args := args c |}.

Definition set_cout (o : ostream) (c : config) : config :=
  {| pc := pc c; numbers := numbers c; sum := sum c; message := message c;
     it_begin := it_begin c; it_end := it_end c; num := num c;
     cout := o; cin := cin c; args := args c |}.

(** The process as the host starts it: control at the first statement of
    [main], no local alive, nothing written. *)
Definition boot (h : host) : config :=
  {| pc := L07; numbers := None; sum := None; message := None;
     it_begin := 0; it_end := 0; num := None;
     cout := Ostream.empty; cin := stdin h; args := argv h |}.

(** Leaving [main]: the locals are destroyed and the runtime flushes
    [std::cout]. *)
Definition leave (c : config) : config :=
  set_cout (flush (cout c))
    (set_numbers None (set_sum None (set_message None c))).

(** ** One statement *)

Inductive outcome : Type :=
| Next (c : config)
| Halt (status : Z) (c : config)
| Undefined.

Definition main_step (w : Z) (c : config) : outcome :=
  match pc c with
  | L07 =>
      (* std::cout << "Hello, C++ World!" << std::endl; *)
      Next (goto L10
              (set_cout (cout c << Str "Hello, C++ World!" << Endl) c))
  | L10 =>
      (* std::vector<int> numbers = {1, 2, 3, 4, 5}; *)
      Next (goto L13 (set_numbers (Some [1; 2; 3; 4; 5]) c))
  | L13 =>
      (* int sum = 0; *)
      Next (goto L14 (set_sum (Some 0) c))
  | L14 =>
      (* for (int num : numbers): __begin = numbers.begin(),
         __end = numbers.end() *)
      match numbers c with
      | Some v => Next (goto L14_cond (set_iterators 0 (List.length v) c))
      | None => Undefined
      end
  | L14_cond =>
      (* __begin != __end; int num = *__begin; *)
      if Nat.eqb (it_begin c) (it_end c) then Next (goto L18 c)
      else
        match numbers c with
        | Some v =>
            match nth_error v (it_begin c) with
            | Some x => Next (goto L15 (set_num (Some x) c))
            | None => Undefined
            end
        | None => Undefined
        end
  | L15 =>
      (* sum += num; and then ++__begin *)
      match sum c, num c with
      | Some s, Some x =>
          match Int.add w s x with
          | Some s' =>
              Next (goto L14_cond
                      (set_num None
                         (set_iterators (S (it_begin c)) (it_end c)
                            (set_sum (Some s') c))))
          | None => Undefined
          end
      | _, _ => Undefined
      end
  | L18 =>
      (* std::cout << "Sum of numbers: " << sum << std::endl; *)
      match sum c with
      | Some s =>
          Next (goto L21
                  (set_cout (cout c << Str "Sum of numbers: " << Int s << Endl)
                     c))
      | None => Undefined
      end
  | L21 =>
      (* std::string message = "C++ is powerful"; *)
      Next (goto L22 (set_message (Some "C++ is powerful"%string) c))
  | L22 =>
      (* std::cout << "Message: " << message << std::endl; *)
      match message c with
      | Some m =>
          Next (goto L23
                  (set_cout (cout c << Str "Message: " << Str m << Endl) c))
      | None => Undefined
      end
  | L23 =>
      (* std::cout << "Length: " << message.length() << std::endl; *)
      match message c with
      | Some m =>
          Next (goto L25
                  (set_cout
                     (cout c << Str "Length: " << Size (String.length m)
                             << Endl) c))
      | None => Undefined
      end
  | L25 =>
      (* return 0; *)
      Halt 0 (leave c)
  end.

(** ** Executions *)

Inductive result : Type :=
| Exited (status : Z) (c : config)
| Crashed
| Running (c : config).

Fixpoint run (w : Z) (fuel : nat) (c : config) : result :=
  match fuel with
  | O => Running c
  | S fuel' =>
      match main_step w c with
      | Next c' => run w fuel' c'
      | Halt status c' => Exited status c'
      | Undefined => Crashed
      end
  end.

(** The configuration after [n] statements, when there is one. *)
Fixpoint after (w : Z) (n : nat) (c : config) : option config :=
  match n with
  | O => Some c
  | S n' =>
      match main_step w c with
      | Next c' => after w n' c'
      | _ => None
      end
  end.

(** An upper bound on the number of statements still to execute.  Before
    line 10 the vector does not exist yet and the bound counts the five
    elements of its initializer; from line 13 on it reads the vector, and
    inside the loop the distance between the two iterators. *)
Definition measure (c : config) : nat :=
  match pc c with
  | L07 => 20
  | L10 => 19
  | L13 => 8 + 2 * match numbers c with Some v => List.length v | None => 0 end
  | L14 => 7 + 2 * match numbers c with Some v => List.length v | None => 0 end
  | L14_cond => 6 + 2 * (it_end c - it_begin c)
  | L15 => 5 + 2 * (it_end c - it_begin c)
  | L18 => 5
  | L21 => 4
  | L22 => 3
  | L23 => 2
  | L25 => 1
  end%nat.

(** The whole program on platform [p] in host process [h]. *)
Definition main (p : platform) (h : host) : result :=
  run (int_bits p) (measure (boot h)) (boot h).

(** What the host sees of a finished execution: the bytes on standard
    output and the exit status. *)
Record observation : Type := {
  out : string;
  status : Z
}.

Definition observe (p : platform) (r : result) : option observation :=
  match r with
  | Exited s c =>
      Some {| out := text_mode (eol p) (delivered (cout c)); status := s |}
  | Crashed | Running _ => None
  end.

(** Lines of text, each closed by the line terminator. *)
Fixpoint unlines (eol : string) (ls : list string) : string :=
  match ls with
  | [] => EmptyString
  | l :: ls' => (l ++ eol ++ unlines eol ls')%string
  end.

(** Exact sum of a list of integers. *)
Definition total (v : list Z) : Z := fold_right Z.add 0 v.

(** ** Observing an execution *)

(** The configurations an execution goes through, the first one included. *)
Fixpoint trace (w : Z) (fuel : nat) (c : config) : list config :=
  c :: match fuel with
       | O => []
       | S fuel' =>
           match main_step w c with
           | Next c' => trace w fuel' c'
           | _ => []
           end
       end.

(** The values bound to [num], in the order in which the loop body meets
    them. *)
Fixpoint fetched (t : list config) : list Z :=
  match t with
  | [] => []
  | c :: t' =>
      match pc c, num c with
      | L15, Some x => x :: fetched t'
      | _, _ => fetched t'
      end
  end.

(** The sum of the first [k] elements of the initializer of [numbers]. *)
Definition partial (k : nat) : Z := total (firstn k [1; 2; 3; 4; 5]).

(** The number of statements executed before control stands at a
    configuration. *)
Definition phase (c : config) : nat :=
  match pc c with
  | L07 => 0
  | L10 => 1
  | L13 => 2
  | L14 => 3
  | L14_cond => 4 + 2 * it_begin c
  | L15 => 5 + 2 * it_begin c
  | L18 => 15
  | L21 => 16
  | L22 => 17
  | L23 => 18
  | L25 => 19
  end%nat.

(** What holds of every configuration of an execution: which locals are
    alive and what they hold, and where the iterators stand. *)
Definition numbers_inv (c : config) : Prop :=
  numbers c =
  match pc c with
  | L07 | L10 => None
  | _ => Some [1; 2; 3; 4; 5]
  end.

Definition message_inv (c : config) : Prop :=
  message c =
  match pc c with
  | L22 | L23 | L25 => Some "C++ is powerful"%string
  | _ => None
  end.

Definition sum_inv (c : config) : Prop :=
  sum c =
  match pc c with
  | L07 | L10 | L13 => None
  | L14 => Some 0
  | L14_cond | L15 => Some (partial (it_begin c))
  | _ => Some 15
  end.

Definition loop_inv (c : config) : Prop :=
  match pc c with
  | L14_cond => it_end c = 5%nat /\ (it_begin c <= 5)%nat
  | L15 =>
      it_end c = 5%nat /\ (it_begin c < 5)%nat /\
      num c = nth_error [1; 2; 3; 4; 5] (it_begin c)
  | _ => True
  end.

Definition Inv (n : nat) (c : config) : Prop :=
  phase c = n /\ numbers_inv c /\ message_inv c /\ sum_inv c /\ loop_inv c.

(** Configurations in which the iterators of the loop are in order; on
    these [measure] decreases with every statement. *)
Definition wf (c : config) : Prop :=
  match pc c with
  | L14_cond => (it_begin c <= it_end c)%nat
  | L15 => (it_begin c < it_end c)%nat
  | _ => True
  end.

(** Two configurations that differ at most in what is left on standard
    input and in the command line. *)
Definition low_eq (c1 c2 : config) : Prop :=
  pc c1 = pc c2 /\ numbers c1 = numbers c2 /\ sum c1 = sum c2 /\
  message c1 = message c2 /\ it_begin c1 = it_begin c2 /\
  it_end c1 = it_end c2 /\ num c1 = num c2 /\ cout c1 = cout c2.

Definition outcome_low_eq (o1 o2 : outcome) : Prop :=
  match o1, o2 with
  | Next c1, Next c2 => low_eq c1 c2
  | Halt s1 c1, Halt s2 c2 => s1 = s2 /\ low_eq c1 c2
  | Undefined, Undefined => True
  | _, _ => False
  end.

Definition result_low_eq (r1 r2 : result) : Prop :=
  match r1, r2 with
  | Exited s1 c1, Exited s2 c2 => s1 = s2 /\ low_eq c1 c2
  | Crashed, Crashed => True
  | Running c1, Running c2 => low_eq c1 c2
  | _, _ => False
  end.

(** The configuration in which every execution ends. *)
Definition final (h : host) : config :=
  {| pc := L25; numbers := None; sum := None; message := None;
     it_begin := 5; it_end := 5; num := None;
     cout :=
       {| pending := "";
          delivered :=
            unlines (String LF "")
              ["Hello, C++ World!"; "Sum of numbers: 15";
               "Message: C++ is powerful"; "Length: 15"]%string |};
     cin := stdin h; args := argv h |}.

(** The configuration in which control reaches line 22. *)
Definition at_L22 (h : host) : config :=
  {| pc := L22; numbers := Some [1; 2; 3; 4; 5]; sum := Some 15;
     message := Some "C++ is powerful"%string;
     it_begin := 5; it_end := 5; num := None;
     cout :=
       {| pending := "";
          delivered :=
            unlines (String LF "")
              ["Hello, C++ World!"; "Sum of numbers: 15"]%string |};
     cin := stdin h; args := argv h |}.

(** Reading a decimal numeral back as a number: what it means for a string
    to be the decimal representation of a value. *)
Definition read_int (s : string) : option Z :=
  option_map Z.of_int (NilZero.int_of_string s).

Definition read_size (s : string) : option nat :=
  option_map Nat.of_uint (NilZero.uint_of_string s).

(** Case analysis on the statement that [H : main_step w c = _] executes. *)
Ltac step_cases c H :=
  destruct c as [? ? ? ? ? ? ? ? ? ?];
  unfold main_step in H; simpl in *;
  repeat match type of H with
         | context [match ?x with _ => _ end] =>
             destruct x; simpl in *; try discriminate; try congruence
         end;
  inversion H; subst; clear H; simpl.

Definition posix32 : platform :=
  {| int_bits := 32; eol := String LF "" |}.

Definition no_input : host := {| argv := []; stdin := None |}.

Definition windows32 : platform :=
  {| int_bits := 32; eol := String "013" (String LF "") |}.

Definition piped_input : host :=
  {| argv := ["--verbose"; "42"]%string; stdin := Some "7 8 9"%string |}.

(** ** Definitions for the properties of single statements *)

(** Everything inserted into a stream so far, flushed or not. *)
Definition written (o : ostream) : string :=
  (delivered o ++ pending o)%string.

(** The characters that inserting an item adds to the stream. *)
Definition text_of (i : item) : string :=
  match i with
  | Str s => s
  | Int z => show_int z
  | Size n => show_size n
  | Endl => String LF ""
  end.

(** The statements that do not use [std::cout]: all but lines 7, 18, 22
    and 23. *)
Definition silent (l : label) : bool :=
  match l with
  | L07 | L18 | L22 | L23 => false
  | _ => true
  end.

(** A configuration with control at [l] and the given locals, nothing
    written yet. *)
Definition at_line (l : label) (v : option (list Z)) (s : option Z)
    (m : option string) : config :=
  {| pc := l; numbers := v; sum := s; message := m;
     it_begin := 0; it_end := 0; num := None;
     cout := Ostream.empty; cin := None; args := [] |}.

Example main_posix32 :
  observe posix32 (main posix32 no_input) =
  Some {| out := unlines (String LF "")
                   ["Hello, C++ World!"; "Sum of numbers: 15";
                    "Message: C++ is powerful"; "Length: 15"]%string;
          status := 0 |}.
Proof. vm_compute. reflexivity. Qed.

(** ** The type [int]: a wider [int] computes what a narrower one does *)

Lemma Int_fits_mono (w w' z : Z) :
  w <= w' -> Int.fits w z = true -> Int.fits w' z = true.
Proof.
  unfold Int.fits, Int.min, Int.max. intros Hw H.
  apply andb_true_iff in H. destruct H as [Hlo Hhi].
  apply Z.leb_le in Hlo. apply Z.leb_le in Hhi.
  assert (Hpow : 2 ^ (w - 1) <= 2 ^ (w' - 1)).
  { destruct (Z_lt_le_dec (w - 1) 0) as [Hneg | Hpos].
    - rewrite (Z.pow_neg_r 2 (w - 1)) by assumption.
      apply Z.pow_nonneg. lia.
    - apply Z.pow_le_mono_r; lia. }
  apply andb_true_iff. split; apply Z.leb_le; lia.
Qed.

Lemma Int_add_mono (w w' a b r : Z) :
  w <= w' -> Int.add w a b = Some r -> Int.add w' a b = Some r.
Proof.
  unfold Int.add. intros Hw H.
  destruct (Int.fits w (a + b)) eqn:E; [ | discriminate ].
  rewrite (Int_fits_mono w w' _ Hw E). assumption.
Qed.

Lemma Int_add_exact (w a b r : Z) : Int.add w a b = Some r -> r = a + b.
Proof.
  unfold Int.add. destruct (Int.fits w (a + b)); congruence.
Qed.

Lemma main_step_mono (w w' : Z) (c : config) (o : outcome) :
  w <= w' -> main_step w c = o -> o <> Undefined -> main_step w' c = o.
Proof.
  intros Hw H Ho. subst o. unfold main_step in *.
  destruct (pc c); try reflexivity.
  destruct (sum c) as [s | ]; [ | reflexivity ].
  destruct (num c) as [x | ]; [ | reflexivity ].
  destruct (Int.add w s x) as [s' | ] eqn:E; [ | congruence ].
  rewrite (Int_add_mono w w' s x s' Hw E). reflexivity.
Qed.

Lemma run_mono (w w' : Z) (fuel : nat) (c : config) (s : Z) (c' : config) :
  w <= w' -> run w fuel c = Exited s c' -> run w' fuel c = Exited s c'.
Proof.
  intros Hw. revert c. induction fuel as [ | fuel IH]; intros c H.
  - discriminate.
  - simpl in *. destruct (main_step w c) as [c1 | s1 c1 | ] eqn:E.
    + rewrite (main_step_mono w w' c _ Hw E) by discriminate. auto.
    + rewrite (main_step_mono w w' c _ Hw E) by discriminate. assumption.
    + discriminate.
Qed.

Lemma after_mono (w w' : Z) (n : nat) (c c' : config) :
  w <= w' -> after w n c = Some c' -> after w' n c = Some c'.
Proof.
  intros Hw. revert c. induction n as [ | n IH]; intros c H.
  - assumption.
  - simpl in *. destruct (main_step w c) as [c1 | s1 c1 | ] eqn:E;
      try discriminate.
    rewrite (main_step_mono w w' c _ Hw E) by discriminate. auto.
Qed.

Lemma trace_mono (w w' : Z) (n : nat) (c : config) :
  w <= w' -> run w n c <> Crashed -> trace w' n c = trace w n c.
Proof.
  intros Hw. revert c. induction n as [ | n IH]; intros c H.
  - reflexivity.
  - simpl in *. destruct (main_step w c) as [c1 | s1 c1 | ] eqn:E.
    + rewrite (main_step_mono w w' c _ Hw E) by discriminate.
      f_equal. auto.
    + rewrite (main_step_mono w w' c _ Hw E) by discriminate. reflexivity.
    + congruence.
Qed.

(** The execution on the narrowest [int] that holds the sum. *)
Lemma run_5 (h : host) : run 5 20 (boot h) = Exited 0 (final h).
Proof. vm_compute. reflexivity. Qed.

Lemma run_wide (w : Z) (h : host) :
  5 <= w -> run w 20 (boot h) = Exited 0 (final h).
Proof. intros Hw. apply (run_mono 5 w); [ assumption | apply run_5 ]. Qed.

Lemma conforming_wide (p : platform) : conforming p -> 5 <= int_bits p.
Proof. unfold conforming. lia. Qed.

(** ** The invariant of the execution *)

Lemma Inv_boot (h : host) : Inv 0 (boot h).
Proof. repeat split. Qed.

Lemma Inv_step (w : Z) (n : nat) (c c' : config) :
  Inv n c -> main_step w c = Next c' -> Inv (S n) c'.
Proof.
  unfold Inv, phase, numbers_inv, message_inv, sum_inv, loop_inv, main_step.
  destruct c as [l v s m b e x o i a]; simpl.
  intros (Hn & Hv & Hm & Hs & Hl) H. subst n.
  destruct l; simpl in *; subst.
  - inversion H; subst; clear H; simpl. repeat split.
  - inversion H; subst; clear H; simpl. repeat split.
  - inversion H; subst; clear H; simpl. repeat split.
  - inversion H; subst; clear H; simpl. repeat split; lia.
  - destruct Hl as [He Hb]. subst e.
    destruct (Nat.eqb b 5) eqn:E.
    + apply Nat.eqb_eq in E. subst b.
      inversion H; subst; clear H; simpl. repeat split.
    + apply Nat.eqb_neq in E.
      destruct (nth_error [1; 2; 3; 4; 5] b) as [y | ] eqn:Ey;
        [ | discriminate ].
      inversion H; subst; clear H; simpl.
      repeat split; try lia. symmetry; assumption.
  - destruct Hl as (He & Hb & Hx). subst e x.
    destruct (nth_error [1; 2; 3; 4; 5] b) as [y | ] eqn:Ey;
      [ | discriminate ].
    destruct (Int.add w (partial b) y) as [s' | ] eqn:Es;
      [ | discriminate ].
    apply Int_add_exact in Es. subst s'.
    inversion H; subst; clear H; simpl.
    repeat split; try lia.
    do 5 (destruct b as [ | b]; [ inversion Ey; reflexivity | ]).
    lia.
  - inversion H; subst; clear H; simpl. repeat split.
  - inversion H; subst; clear H; simpl. repeat split.
  - inversion H; subst; clear H; simpl. repeat split.
  - inversion H; subst; clear H; simpl. repeat split.
  - discriminate.
Qed.

Lemma Inv_after (w : Z) (m n : nat) (c c' : config) :
  Inv n c -> after w m c = Some c' -> Inv (n + m) c'.
Proof.
  revert n c. induction m as [ | m IH]; intros n c Hc H.
  - inversion H; subst. rewrite Nat.add_0_r. assumption.
  - simpl in H. destruct (main_step w c) as [c1 | | ] eqn:E;
      try discriminate.
    replace (n + S m)%nat with (S n + m)%nat by lia.
    apply (IH (S n) c1); [ apply (Inv_step w n c); assumption | assumption ].
Qed.

Lemma Inv_reachable (w : Z) (h : host) (n : nat) (c : config) :
  after w n (boot h) = Some c -> Inv n c.
Proof. intros H. apply (Inv_after w n 0 (boot h) c (Inv_boot h) H). Qed.

(** ** Frame: which statement writes which variable *)

Lemma step_frame_numbers (w : Z) (c c' : config) :
  main_step w c = Next c' -> pc c <> L10 -> numbers c' = numbers c.
Proof. intros H Hpc. step_cases c H; reflexivity. Qed.

Lemma step_frame_message (w : Z) (c c' : config) :
  main_step w c = Next c' -> pc c <> L21 -> message c' = message c.
Proof. intros H Hpc. step_cases c H; reflexivity. Qed.

Lemma step_frame_sum (w : Z) (c c' : config) :
  main_step w c = Next c' -> pc c <> L13 -> pc c <> L15 -> sum c' = sum c.
Proof. intros H H13 H15. step_cases c H; reflexivity. Qed.

Lemma step_frame_input (w : Z) (c c' : config) :
  main_step w c = Next c' -> cin c' = cin c /\ args c' = args c.
Proof. intros H. step_cases c H; split; reflexivity. Qed.

Lemma after_frame_input (w : Z) (n : nat) (c c' : config) :
  after w n c = Some c' -> cin c' = cin c /\ args c' = args c.
Proof.
  revert c. induction n as [ | n IH]; intros c H.
  - inversion H; split; reflexivity.
  - simpl in H. destruct (main_step w c) as [c1 | | ] eqn:E;
      try discriminate.
    destruct (step_frame_input w c c1 E) as [Hi Ha].
    destruct (IH c1 H) as [Hi' Ha']. split; congruence.
Qed.

(** ** The exit status *)

Lemma step_halt (w : Z) (c : config) (s : Z) (c' : config) :
  main_step w c = Halt s c' -> s = 0 /\ pc c = L25 /\ c' = leave c.
Proof. intros H. step_cases c H. repeat split. Qed.

Lemma run_exit_status (w : Z) (fuel : nat) (c : config) (s : Z) (c' : config) :
  run w fuel c = Exited s c' -> s = 0.
Proof.
  revert c. induction fuel as [ | fuel IH]; intros c H.
  - discriminate.
  - simpl in H. destruct (main_step w c) as [c1 | s1 c1 | ] eqn:E.
    + eauto.
    + inversion H; subst. apply (step_halt w c s c' E).
    + discriminate.
Qed.

(** ** Nothing depends on standard input or on the command line *)

Lemma low_eq_refl (c : config) : low_eq c c.
Proof. repeat split. Qed.

Lemma low_eq_boot (h1 h2 : host) : low_eq (boot h1) (boot h2).
Proof. repeat split. Qed.

Lemma step_low_eq (w : Z) (c1 c2 : config) :
  low_eq c1 c2 -> outcome_low_eq (main_step w c1) (main_step w c2).
Proof.
  destruct c1 as [l1 v1 s1 m1 b1 e1 x1 o1 i1 a1].
  destruct c2 as [l2 v2 s2 m2 b2 e2 x2 o2 i2 a2].
  unfold low_eq, main_step; simpl.
  intros (Hl & Hv & Hs & Hm & Hb & He & Hx & Ho). subst.
  destruct l2; simpl;
    repeat match goal with
           | |- context [match ?x with _ => _ end] => destruct x; simpl
           end;
    repeat split.
Qed.

Lemma run_low_eq (w : Z) (fuel : nat) (c1 c2 : config) :
  low_eq c1 c2 -> result_low_eq (run w fuel c1) (run w fuel c2).
Proof.
  revert c1 c2. induction fuel as [ | fuel IH]; intros c1 c2 H.
  - assumption.
  - simpl. pose proof (step_low_eq w c1 c2 H) as Hs.
    destruct (main_step w c1) as [d1 | t1 d1 | ];
      destruct (main_step w c2) as [d2 | t2 d2 | ];
      simpl in Hs; try contradiction; auto.
Qed.

Lemma observe_low_eq (p : platform) (r1 r2 : result) :
  result_low_eq r1 r2 -> observe p r1 = observe p r2.
Proof.
  destruct r1 as [s1 c1 | | c1]; destruct r2 as [s2 c2 | | c2]; simpl;
    try contradiction; try reflexivity.
  intros [Hs H]. destruct H as (_ & _ & _ & _ & _ & _ & _ & Ho).
  rewrite Hs, Ho. reflexivity.
Qed.

(** ** Termination: [measure] decreases *)

Lemma wf_boot (h : host) : wf (boot h).
Proof. exact I. Qed.

Lemma step_decreases (w : Z) (c c' : config) :
  wf c -> main_step w c = Next c' ->
  wf c' /\ (measure c' < measure c)%nat.
Proof.
  intros Hwf H. unfold wf, measure in *.
  destruct c as [l v s m b e x o i a]. unfold main_step in H. simpl in *.
  destruct l; simpl in *.
  - inversion H; subst; simpl. split; [ exact I | lia ].
  - inversion H; subst; simpl. split; [ exact I | lia ].
  - inversion H; subst; simpl. split; [ exact I | lia ].
  - destruct v as [v | ]; [ | discriminate ].
    inversion H; subst; simpl. split; lia.
  - destruct (Nat.eqb b e) eqn:E.
    + inversion H; subst; simpl. split; [ exact I | lia ].
    + apply Nat.eqb_neq in E.
      destruct v as [v | ]; [ | discriminate ].
      destruct (nth_error v b); [ | discriminate ].
      inversion H; subst; simpl. split; lia.
  - destruct s as [s | ]; [ | discriminate ].
    destruct x as [x | ]; [ | discriminate ].
    destruct (Int.add w s x); [ | discriminate ].
    inversion H; subst; simpl. split; lia.
  - destruct s as [s | ]; [ | discriminate ].
    inversion H; subst; simpl. split; [ exact I | lia ].
  - inversion H; subst; simpl. split; [ exact I | lia ].
  - destruct m as [m | ]; [ | discriminate ].
    inversion H; subst; simpl. split; [ exact I | lia ].
  - destruct m as [m | ]; [ | discriminate ].
    inversion H; subst; simpl. split; [ exact I | lia ].
  - discriminate.
Qed.

Lemma measure_pos (c : config) : (0 < measure c)%nat.
Proof. unfold measure. destruct (pc c); lia. Qed.

Lemma run_within_measure (w : Z) (fuel : nat) (c : config) :
  wf c -> (measure c <= fuel)%nat ->
  forall c', run w fuel c <> Running c'.
Proof.
  revert c. induction fuel as [ | fuel IH]; intros c Hwf Hm c'.
  - pose proof (measure_pos c). lia.
  - simpl. destruct (main_step w c) as [c1 | s1 c1 | ] eqn:E;
      try discriminate.
    destruct (step_decreases w c c1 Hwf E) as [Hwf1 Hlt].
    apply IH; [ assumption | lia ].
Qed.

(** ** The loop computes the sum, whatever the vector holds *)

Lemma total_firstn_S (v : list Z) (k : nat) (x : Z) :
  nth_error v k = Some x ->
  total (firstn (S k) v) = total (firstn k v) + x.
Proof.
  revert k. induction v as [ | y v IH]; intros k H.
  - destruct k; discriminate.
  - destruct k as [ | k].
    + inversion H; subst. unfold total; simpl. lia.
    + simpl in H. specialize (IH k H).
      change (total (firstn (S (S k)) (y :: v)))
        with (y + total (firstn (S k) v)).
      change (total (firstn (S k) (y :: v))) with (y + total (firstn k v)).
      lia.
Qed.

Lemma loop_from (w : Z) (v : list Z) (s0 : Z) :
  (forall j, (j <= List.length v)%nat ->
             Int.fits w (s0 + total (firstn j v)) = true) ->
  forall (r k : nat) (c : config),
    (k + r = List.length v)%nat ->
    pc c = L14_cond -> numbers c = Some v ->
    it_begin c = k -> it_end c = List.length v ->
    sum c = Some (s0 + total (firstn k v)) ->
    exists c',
      after w (2 * r + 1) c = Some c' /\ pc c' = L18 /\
      sum c' = Some (s0 + total v) /\ numbers c' = Some v /\
      message c' = message c /\ cout c' = cout c.
Proof.
  intros Hfit. induction r as [ | r IH]; intros k c Hk Hpc Hv Hb He Hs.
  - exists (goto L18 c). simpl. unfold main_step.
    rewrite Hpc, Hb, He.
    replace k with (List.length v) in * by lia.
    rewrite Nat.eqb_refl. rewrite firstn_all in Hs.
    repeat split; assumption.
  - assert (Hlt : (k < List.length v)%nat) by lia.
    destruct (nth_error v k) as [x | ] eqn:Ex;
      [ | apply nth_error_None in Ex; lia ].
    pose proof (total_firstn_S v k x Ex) as Hx.
    pose proof (Hfit (S k) Hlt) as Hf. rewrite Hx, Z.add_assoc in Hf.
    set (c2 := goto L14_cond
                 (set_num None
                    (set_iterators (S k) (List.length v)
                       (set_sum (Some (s0 + total (firstn (S k) v)))
                          (goto L15 (set_num (Some x) c)))))).
    destruct (IH (S k) c2) as (c' & Hc' & H1 & H2 & H3 & H4 & H5);
      try reflexivity; try assumption; try lia.
    exists c'. repeat split; try assumption.
    replace (2 * S r + 1)%nat with (S (S (2 * r + 1))) by lia.
    cbn [after]. unfold main_step at 1.
    rewrite Hpc, Hb, He.
    destruct (Nat.eqb k (List.length v)) eqn:E;
      [ apply Nat.eqb_eq in E; lia | ].
    rewrite Hv, Ex. unfold main_step at 1. cbn [pc goto sum num set_num].
    rewrite Hs. unfold Int.add. rewrite Hf.
    cbn [it_begin it_end set_num goto]. rewrite Hb, He.
    unfold c2 in Hc'. rewrite Hx, Z.add_assoc in Hc'. exact Hc'.
Qed.

(** From line 14 to line 18: the range-based [for] adds every element of
    the vector to [sum], provided no partial sum overflows. *)
Lemma range_for_total (w : Z) (v : list Z) (s0 : Z) (c : config) :
  pc c = L14 -> numbers c = Some v -> sum c = Some s0 ->
  (forall j, (j <= List.length v)%nat ->
             Int.fits w (s0 + total (firstn j v)) = true) ->
  exists c',
    after w (2 * List.length v + 2) c = Some c' /\ pc c' = L18 /\
    sum c' = Some (s0 + total v) /\ numbers c' = Some v /\
    message c' = message c /\ cout c' = cout c.
Proof.
  intros Hpc Hv Hs Hfit.
  destruct (loop_from w v s0 Hfit (List.length v) 0
              (goto L14_cond (set_iterators 0 (List.length v) c)))
    as (c' & Hc' & H); try reflexivity; try assumption.
  - simpl. rewrite Hs. f_equal. unfold total. simpl. lia.
  - exists c'. split; [ | exact H ].
    replace (2 * List.length v + 2)%nat
      with (S (2 * List.length v + 1)) by lia.
    cbn [after]. unfold main_step at 1. rewrite Hpc, Hv. exact Hc'.
Qed.

(** ** Decimal formatting *)

Lemma show_int_read (z : Z) : read_int (show_int z) = Some z.
Proof.
  unfold read_int, show_int.
  rewrite NilZero.isi.
  - simpl. f_equal. apply DecimalZ.of_to.
  - destruct z as [ | q | q]; simpl; try discriminate.
    intros H. inversion H as [Hq]. exact (DecimalPos.Unsigned.to_uint_nonnil q Hq).
  - destruct z as [ | q | q]; simpl; try discriminate.
    intros H. inversion H as [Hq]. exact (DecimalPos.Unsigned.to_uint_nonnil q Hq).
Qed.

Lemma show_size_read (n : nat) : read_size (show_size n) = Some n.
Proof.
  unfold read_size, show_size.
  rewrite NilZero.usu.
  - simpl. f_equal. apply DecimalNat.Unsigned.of_to.
  - intros H. pose proof (DecimalNat.Unsigned.of_to n) as Hn.
    rewrite H in Hn. simpl in Hn. subst n. discriminate.
Qed.

(** ** Partial sums of positive numbers *)

Lemma total_firstn_nonneg (v : list Z) (k : nat) :
  Forall (fun x => 0 < x) v -> 0 <= total (firstn k v).
Proof.
  intros Hv. revert k. induction Hv as [ | x v Hx Hv IH]; intros k.
  - destruct k; unfold total; simpl; lia.
  - destruct k as [ | k].
    + unfold total; simpl; lia.
    + change (total (firstn (S k) (x :: v))) with (x + total (firstn k v)).
      specialize (IH k). lia.
Qed.

Lemma total_firstn_increasing (v : list Z) (k : nat) :
  Forall (fun x => 0 < x) v -> (k < List.length v)%nat ->
  total (firstn k v) < total (firstn (S k) v).
Proof.
  intros Hv Hk.
  destruct (nth_error v k) as [x | ] eqn:Ex;
    [ | apply nth_error_None in Ex; lia ].
  rewrite (total_firstn_S v k x Ex).
  assert (0 < x).
  { apply nth_error_In in Ex.
    rewrite Forall_forall in Hv. exact (Hv x Ex). }
  lia.
Qed.

Lemma numbers_positive : Forall (fun x => 0 < x) [1; 2; 3; 4; 5].
Proof. repeat constructor. Qed.

Lemma partial_fits (w : Z) (j : nat) :
  5 <= w -> (j <= 5)%nat -> Int.fits w (partial j) = true.
Proof.
  intros Hw Hj. apply (Int_fits_mono 5 w); [ assumption | ].
  do 6 (destruct j as [ | j]; [ reflexivity | ]). lia.
Qed.

(** ** Composing executions *)

Lemma after_add (w : Z) (n m : nat) (c : config) :
  after w (n + m) c =
  match after w n c with
  | Some c' => after w m c'
  | None => None
  end.
Proof.
  revert c. induction n as [ | n IH]; intros c.
  - reflexivity.
  - simpl. destruct (main_step w c); auto.
Qed.

Lemma after_wide (w : Z) (n : nat) (h : host) (c : config) :
  5 <= w -> after 5 n (boot h) = Some c -> after w n (boot h) = Some c.
Proof. intros Hw. apply after_mono. assumption. Qed.

Lemma trace_wide (w : Z) (h : host) :
  5 <= w -> trace w 20 (boot h) = trace 5 20 (boot h).
Proof.
  intros Hw. apply trace_mono; [ assumption | ].
  rewrite run_5. discriminate.
Qed.

Lemma run_more_fuel (w : Z) (n m : nat) (c : config) (s : Z) (c' : config) :
  run w n c = Exited s c' -> (n <= m)%nat -> run w m c = Exited s c'.
Proof.
  revert m c. induction n as [ | n IH]; intros m c H Hm.
  - discriminate.
  - destruct m as [ | m]; [ lia | ].
    simpl in *. destruct (main_step w c); try assumption.
    apply IH; [ assumption | lia ].
Qed.

Lemma run_less_fuel (w : Z) (n : nat) (c c' : config) :
  after w n c = Some c' -> run w n c = Running c'.
Proof.
  revert c. induction n as [ | n IH]; intros c H.
  - inversion H. reflexivity.
  - simpl in *. destruct (main_step w c); try discriminate. auto.
Qed.

Lemma after_fewer (w : Z) (n m : nat) (c c' : config) :
  after w n c = Some c' -> (m <= n)%nat -> exists d, after w m c = Some d.
Proof.
  intros H Hm. replace n with (m + (n - m))%nat in H by lia.
  rewrite after_add in H.
  destruct (after w m c) as [d | ]; [ exists d; reflexivity | discriminate ].
Qed.

(** ** The whole execution *)

Lemma main_wide (p : platform) (h : host) :
  5 <= int_bits p -> main p h = Exited 0 (final h).
Proof.
  intros Hw. unfold main. change (measure (boot h)) with 20%nat.
  apply run_wide. assumption.
Qed.

(** * The properties of the program *)

(** C1.  Every execution writes exactly four lines to standard output, in
    this order: [Hello, C++ World!], [Sum of numbers: 15],
    [Message: C++ is powerful], [Length: 15], each closed by the line
    terminator of the host, and nothing else; nothing stays behind in the
    buffer of the stream. *)
Theorem main_prints_four_lines (p : platform) (h : host) :
  5 <= int_bits p ->
  exists c,
    main p h = Exited 0 c /\
    pending (cout c) = ""%string /\
    observe p (main p h) =
    Some {| out := unlines (eol p)
                     ["Hello, C++ World!"; "Sum of numbers: 15";
                      "Message: C++ is powerful"; "Length: 15"]%string;
            status := 0 |}.
Proof.
  intros Hw. exists (final h).
  rewrite (main_wide p h Hw). repeat split.
Qed.

Lemma main_prints_four_lines_witness :
  5 <= int_bits windows32 /\
  exists c,
    main windows32 piped_input = Exited 0 c /\
    pending (cout c) = ""%string /\
    observe windows32 (main windows32 piped_input) =
    Some {| out := unlines (eol windows32)
                     ["Hello, C++ World!"; "Sum of numbers: 15";
                      "Message: C++ is powerful"; "Length: 15"]%string;
            status := 0 |}.
Proof.
  split; [ simpl; lia | ].
  apply (main_prints_four_lines windows32 piped_input). simpl; lia.
Defined.

(** C2.  The accumulator [sum] starts at 0; the loop meets the elements
    1, 2, 3, 4, 5 in this order and adds each to [sum]; after the loop [sum]
    is the arithmetic sum of the elements of [numbers], which is 15; the
    line printed next is [Sum of numbers: ] followed by the decimal numeral
    of that value. *)
Theorem sum_of_numbers (p : platform) (h : host) :
  5 <= int_bits p ->
  exists c14 c18 c21,
    after (int_bits p) 3 (boot h) = Some c14 /\
    pc c14 = L14 /\ sum c14 = Some 0 /\
    numbers c14 = Some [1; 2; 3; 4; 5] /\
    fetched (trace (int_bits p) 20 (boot h)) = [1; 2; 3; 4; 5] /\
    after (int_bits p) 12 c14 = Some c18 /\
    pc c18 = L18 /\ numbers c18 = Some [1; 2; 3; 4; 5] /\
    sum c18 = Some (total [1; 2; 3; 4; 5]) /\
    total [1; 2; 3; 4; 5] = 15 /\
    main_step (int_bits p) c18 = Next c21 /\
    cout c21 = cout c18 << Str "Sum of numbers: " << Int 15 << Endl /\
    delivered (cout c21) =
      (delivered (cout c18) ++ "Sum of numbers: 15" ++ String LF "")%string /\
    read_int "15" = Some 15.
Proof.
  intros Hw.
  assert (H14 : exists c14, after (int_bits p) 3 (boot h) = Some c14 /\
                            pc c14 = L14 /\ sum c14 = Some 0 /\
                            numbers c14 = Some [1; 2; 3; 4; 5] /\
                            pending (cout c14) = ""%string).
  { eexists. split; [ reflexivity | repeat split ]. }
  destruct H14 as (c14 & Hc14 & Hpc & Hs & Hv & Hp).
  destruct (range_for_total (int_bits p) [1; 2; 3; 4; 5] 0 c14 Hpc Hv Hs)
    as (c18 & Hc18 & Hpc18 & Hs18 & Hv18 & _ & Ho18).
  { intros j Hj. apply (partial_fits (int_bits p) j Hw Hj). }
  exists c14, c18.
  exists (goto L21
            (set_cout (cout c18 << Str "Sum of numbers: " << Int 15 << Endl)
               c18)).
  repeat split; try assumption.
  - rewrite (trace_wide (int_bits p) h Hw). reflexivity.
  - unfold main_step. rewrite Hpc18, Hs18. reflexivity.
  - simpl. rewrite Ho18, Hp. reflexivity.
Qed.

Lemma sum_of_numbers_witness :
  5 <= int_bits posix32 /\
  exists c14 c18 c21,
    after (int_bits posix32) 3 (boot no_input) = Some c14 /\
    pc c14 = L14 /\ sum c14 = Some 0 /\
    numbers c14 = Some [1; 2; 3; 4; 5] /\
    fetched (trace (int_bits posix32) 20 (boot no_input)) = [1; 2; 3; 4; 5] /\
    after (int_bits posix32) 12 c14 = Some c18 /\
    pc c18 = L18 /\ numbers c18 = Some [1; 2; 3; 4; 5] /\
    sum c18 = Some (total [1; 2; 3; 4; 5]) /\
    total [1; 2; 3; 4; 5] = 15 /\
    main_step (int_bits posix32) c18 = Next c21 /\
    cout c21 = cout c18 << Str "Sum of numbers: " << Int 15 << Endl /\
    delivered (cout c21) =
      (delivered (cout c18) ++ "Sum of numbers: 15" ++ String LF "")%string /\
    read_int "15" = Some 15.
Proof.
  split; [ simpl; lia | ].
  apply (sum_of_numbers posix32 no_input). simpl; lia.
Defined.

(** C3.  The string bound to [message] is [C++ is powerful]; its reported
    length is the number of its code units, 15; the program writes
    [Message: ] followed by the string and then [Length: ] followed by the
    decimal numeral of that count. *)
Theorem message_and_length (p : platform) (h : host) :
  5 <= int_bits p ->
  exists c22 c23 c25,
    after (int_bits p) 17 (boot h) = Some c22 /\
    pc c22 = L22 /\ message c22 = Some "C++ is powerful"%string /\
    String.length "C++ is powerful" = 15%nat /\
    main_step (int_bits p) c22 = Next c23 /\
    pc c23 = L23 /\ message c23 = Some "C++ is powerful"%string /\
    cout c23 = cout c22 << Str "Message: " << Str "C++ is powerful" << Endl /\
    main_step (int_bits p) c23 = Next c25 /\
    cout c25 =
      cout c23 << Str "Length: " << Size (String.length "C++ is powerful")
               << Endl /\
    show_size (String.length "C++ is powerful") = "15"%string /\
    read_size "15" = Some 15%nat /\
    delivered (cout c25) =
      (delivered (cout c22) ++
       unlines (String LF "") ["Message: C++ is powerful"; "Length: 15"])%string.
Proof.
  intros Hw.
  assert (H22 : after 5 17 (boot h) = Some (at_L22 h))
    by (vm_compute; reflexivity).
  exists (at_L22 h). do 2 eexists.
  split; [ apply (after_wide _ _ _ _ Hw); exact H22 | ].
  do 3 (split; [ reflexivity | ]).
  split; [ vm_compute; reflexivity | ].
  do 3 (split; [ reflexivity | ]).
  split; [ vm_compute; reflexivity | ].
  repeat split.
Qed.

Lemma message_and_length_witness :
  5 <= int_bits windows32 /\
  exists c22 c23 c25,
    after (int_bits windows32) 17 (boot no_input) = Some c22 /\
    pc c22 = L22 /\ message c22 = Some "C++ is powerful"%string /\
    String.length "C++ is powerful" = 15%nat /\
    main_step (int_bits windows32) c22 = Next c23 /\
    pc c23 = L23 /\ message c23 = Some "C++ is powerful"%string /\
    cout c23 = cout c22 << Str "Message: " << Str "C++ is powerful" << Endl /\
    main_step (int_bits windows32) c23 = Next c25 /\
    cout c25 =
      cout c23 << Str "Length: " << Size (String.length "C++ is powerful")
               << Endl /\
    show_size (String.length "C++ is powerful") = "15"%string /\
    read_size "15" = Some 15%nat /\
    delivered (cout c25) =
      (delivered (cout c22) ++
       unlines (String LF "") ["Message: C++ is powerful"; "Length: 15"])%string.
Proof.
  split; [ simpl; lia | ].
  apply (message_and_length windows32 no_input). simpl; lia.
Defined.

(** C4.  The program runs to its final statement and returns 0 to the host.
    The final statement returns 0 in every configuration, whatever the
    locals, the stream and the input hold; no statement returns anything
    else, so every execution that exits, from any configuration and on any
    platform, exits with status 0. *)
Theorem exit_status_is_success (p : platform) (h : host) :
  5 <= int_bits p ->
  (exists c, main p h = Exited 0 c) /\
  (forall w c, pc c = L25 -> main_step w c = Halt 0 (leave c)) /\
  (forall w c s c', main_step w c = Halt s c' -> s = 0 /\ pc c = L25) /\
  (forall w fuel c s c', run w fuel c = Exited s c' -> s = 0).
Proof.
  intros Hw. repeat split.
  - exists (final h). apply main_wide. assumption.
  - intros w c Hpc. unfold main_step. rewrite Hpc. reflexivity.
  - apply (step_halt w c s c' H).
  - apply (step_halt w c s c' H).
  - intros w fuel c s c'. apply run_exit_status.
Qed.

Lemma exit_status_is_success_witness :
  5 <= int_bits posix32 /\
  (exists c, main posix32 piped_input = Exited 0 c) /\
  (forall w c, pc c = L25 -> main_step w c = Halt 0 (leave c)) /\
  (forall w c s c', main_step w c = Halt s c' -> s = 0 /\ pc c = L25) /\
  (forall w fuel c s c', run w fuel c = Exited s c' -> s = 0).
Proof.
  split; [ simpl; lia | ].
  apply (exit_status_is_success posix32 piped_input). simpl; lia.
Defined.

(** C5.  Output and exit status do not depend on the command line or on
    standard input: two executions on one platform, with any two command
    lines and with standard input holding anything or closed, are observed
    alike, whatever the fuel; the execution leaves standard input exactly
    as it found it. *)
Theorem output_independent_of_input (p : platform) (h1 h2 : host) :
  5 <= int_bits p ->
  observe p (main p h1) = observe p (main p h2) /\
  (exists o, observe p (main p h1) = Some o /\ status o = 0) /\
  (forall w fuel,
     observe p (run w fuel (boot h1)) = observe p (run w fuel (boot h2))) /\
  (forall w n c, after w n (boot h1) = Some c ->
                 cin c = stdin h1 /\ args c = argv h1) /\
  (forall s c, main p h1 = Exited s c ->
               cin c = stdin h1 /\ args c = argv h1).
Proof.
  intros Hw. repeat split.
  - apply observe_low_eq. apply run_low_eq. apply low_eq_boot.
  - rewrite (main_wide p h1 Hw). eexists. split; reflexivity.
  - intros w fuel. apply observe_low_eq. apply run_low_eq.
    apply low_eq_boot.
  - apply (after_frame_input w n (boot h1) c H).
  - apply (after_frame_input w n (boot h1) c H).
  - rewrite (main_wide p h1 Hw) in H. inversion H. reflexivity.
  - rewrite (main_wide p h1 Hw) in H. inversion H. reflexivity.
Qed.

Lemma output_independent_of_input_witness :
  5 <= int_bits posix32 /\
  observe posix32 (main posix32 no_input) =
  observe posix32 (main posix32 piped_input) /\
  (exists o, observe posix32 (main posix32 no_input) = Some o /\
             status o = 0) /\
  (forall w fuel,
     observe posix32 (run w fuel (boot no_input)) =
     observe posix32 (run w fuel (boot piped_input))) /\
  (forall w n c, after w n (boot no_input) = Some c ->
                 cin c = stdin no_input /\ args c = argv no_input) /\
  (forall s c, main posix32 no_input = Exited s c ->
               cin c = stdin no_input /\ args c = argv no_input).
Proof.
  split; [ simpl; lia | ].
  apply (output_independent_of_input posix32 no_input piped_input).
  simpl; lia.
Defined.

(** C6.  The program is deterministic: on a platform the bytes written to
    standard output are one constant, the same for every execution and for
    every amount of fuel that lets the execution finish, so two executions
    in the same environment write byte-identical output. *)
Theorem output_is_deterministic (p : platform) :
  5 <= int_bits p ->
  exists bytes,
    (forall h, option_map out (observe p (main p h)) = Some bytes) /\
    (forall h fuel,
       (20 <= fuel)%nat ->
       option_map out (observe p (run (int_bits p) fuel (boot h))) =
       Some bytes) /\
    (forall h1 h2,
       option_map out (observe p (main p h1)) =
       option_map out (observe p (main p h2))).
Proof.
  intros Hw.
  exists (text_mode (eol p) (delivered (cout (final no_input)))).
  repeat split.
  - intros h. rewrite (main_wide p h Hw). reflexivity.
  - intros h fuel Hf.
    rewrite (run_more_fuel (int_bits p) 20 fuel (boot h) 0 (final h)
               (run_wide (int_bits p) h Hw) Hf).
    reflexivity.
  - intros h1 h2.
    rewrite (main_wide p h1 Hw), (main_wide p h2 Hw). reflexivity.
Qed.

Lemma output_is_deterministic_witness :
  5 <= int_bits windows32 /\
  exists bytes,
    (forall h, option_map out (observe windows32 (main windows32 h)) =
               Some bytes) /\
    (forall h fuel,
       (20 <= fuel)%nat ->
       option_map out
         (observe windows32 (run (int_bits windows32) fuel (boot h))) =
       Some bytes) /\
    (forall h1 h2,
       option_map out (observe windows32 (main windows32 h1)) =
       option_map out (observe windows32 (main windows32 h2))).
Proof.
  split; [ simpl; lia | ].
  apply (output_is_deterministic windows32). simpl; lia.
Defined.

(** Five bits are needed: with a 4-bit [int] the addition 6 + 4
    overflows. *)
Lemma width_4_overflows (h : host) :
  Int.fits 4 15 = false /\ run 4 20 (boot h) = Crashed.
Proof. split; vm_compute; reflexivity. Qed.

(** C7.  No addition of the loop overflows: in exact arithmetic the sum is
    15; in an [int] of any width of at least 5 bits 15 is representable,
    and so is every partial sum; every addition the loop executes returns
    the exact sum, and the execution ends without undefined behaviour. *)
Theorem sum_does_not_overflow (w : Z) (h : host) :
  5 <= w ->
  total [1; 2; 3; 4; 5] = 15 /\
  Int.min w <= 15 <= Int.max w /\
  (forall k, (k <= 5)%nat ->
             Int.min w <= total (firstn k [1; 2; 3; 4; 5]) <= Int.max w) /\
  (forall n c, after w n (boot h) = Some c -> pc c = L15 ->
               exists s x, sum c = Some s /\ num c = Some x /\
                           Int.add w s x = Some (s + x)) /\
  run w 20 (boot h) = Exited 0 (final h).
Proof.
  intros Hw.
  assert (Hfit : forall k, (k <= 5)%nat ->
            Int.min w <= total (firstn k [1; 2; 3; 4; 5]) <= Int.max w).
  { intros k Hk. pose proof (partial_fits w k Hw Hk) as H.
    unfold Int.fits in H. apply andb_true_iff in H. destruct H as [Hlo Hhi].
    apply Z.leb_le in Hlo. apply Z.leb_le in Hhi.
    unfold partial in *. lia. }
  split; [ reflexivity | ].
  split; [ exact (Hfit 5%nat (Nat.le_refl 5)) | ].
  split; [ exact Hfit | ].
  split; [ | apply run_wide; assumption ].
  intros n c Hc Hpc.
  destruct (Inv_reachable w h n c Hc) as (_ & _ & _ & Hs & Hl).
  unfold sum_inv, loop_inv in *. rewrite Hpc in *.
  destruct Hl as (_ & Hb & Hx).
  destruct (nth_error [1; 2; 3; 4; 5] (it_begin c)) as [x | ] eqn:Ex;
    [ | apply nth_error_None in Ex; simpl in Ex; lia ].
  exists (partial (it_begin c)), x. repeat split; try assumption.
  unfold Int.add.
  replace (partial (it_begin c) + x) with (partial (S (it_begin c)))
    by (unfold partial; apply total_firstn_S; assumption).
  rewrite (partial_fits w (S (it_begin c)) Hw) by lia. reflexivity.
Qed.

Lemma sum_does_not_overflow_witness :
  5 <= 5 /\
  total [1; 2; 3; 4; 5] = 15 /\
  Int.min 5 <= 15 <= Int.max 5 /\
  (forall k, (k <= 5)%nat ->
             Int.min 5 <= total (firstn k [1; 2; 3; 4; 5]) <= Int.max 5) /\
  (forall n c, after 5 n (boot no_input) = Some c -> pc c = L15 ->
               exists s x, sum c = Some s /\ num c = Some x /\
                           Int.add 5 s x = Some (s + x)) /\
  run 5 20 (boot no_input) = Exited 0 (final no_input).
Proof.
  split; [ lia | ].
  apply (sum_does_not_overflow 5 no_input). lia.
Defined.

(** C8.  Once line 10 has created [numbers] it holds (1, 2, 3, 4, 5) in
    every later configuration of the execution, and once line 21 has created
    [message] it holds [C++ is powerful] in every later one.  No statement
    but the one that creates it writes either variable; of the three locals
    only [sum] is written again, by the loop body. *)
Theorem locals_not_mutated (w : Z) (h : host) (n : nat) (c : config) :
  after w n (boot h) = Some c ->
  ((2 <= n)%nat -> numbers c = Some [1; 2; 3; 4; 5]) /\
  ((17 <= n)%nat -> message c = Some "C++ is powerful"%string) /\
  (pc c = L10 -> n = 1%nat) /\
  (pc c = L21 -> n = 16%nat) /\
  (forall c', main_step w c = Next c' ->
     (pc c <> L10 -> numbers c' = numbers c) /\
     (pc c <> L21 -> message c' = message c) /\
     (pc c <> L13 -> pc c <> L15 -> sum c' = sum c)).
Proof.
  intros Hc.
  destruct (Inv_reachable w h n c Hc) as (Hn & Hv & Hm & _ & Hl).
  unfold phase, numbers_inv, message_inv, loop_inv in *.
  repeat split.
  - intros H2. rewrite Hv. destruct (pc c); try reflexivity; lia.
  - intros H17. rewrite Hm. destruct (pc c); try reflexivity; lia.
  - intros Hpc. rewrite Hpc in Hn. symmetry; assumption.
  - intros Hpc. rewrite Hpc in Hn. symmetry; assumption.
  - apply (step_frame_numbers w c c' H).
  - apply (step_frame_message w c c' H).
  - apply (step_frame_sum w c c' H).
Qed.

Lemma locals_not_mutated_witness :
  exists c,
    after 32 18 (boot piped_input) = Some c /\
    ((2 <= 18)%nat -> numbers c = Some [1; 2; 3; 4; 5]) /\
    ((17 <= 18)%nat -> message c = Some "C++ is powerful"%string) /\
    (pc c = L10 -> 18%nat = 1%nat) /\
    (pc c = L21 -> 18%nat = 16%nat) /\
    (forall c', main_step 32 c = Next c' ->
       (pc c <> L10 -> numbers c' = numbers c) /\
       (pc c <> L21 -> message c' = message c) /\
       (pc c <> L13 -> pc c <> L15 -> sum c' = sum c)).
Proof.
  eexists. split; [ vm_compute; reflexivity | ].
  apply (locals_not_mutated 32 piped_input 18). vm_compute; reflexivity.
Defined.

(** C9.  The program always terminates.  Every execution takes exactly 20
    statements, of which the loop body accounts for five, one for each
    element of the vector; it is finished by any fuel of at least 20.  The
    reason is general: [measure] decreases with every statement of every
    configuration whose iterators are in order, so no execution from such a
    configuration outlasts its measure. *)
Theorem main_terminates (p : platform) (h : host) :
  5 <= int_bits p ->
  main p h = Exited 0 (final h) /\
  (forall fuel, (20 <= fuel)%nat ->
                run (int_bits p) fuel (boot h) = Exited 0 (final h)) /\
  (forall fuel, (fuel < 20)%nat ->
                exists c, run (int_bits p) fuel (boot h) = Running c) /\
  List.length
    (filter (fun c => label_eqb (pc c) L15)
       (trace (int_bits p) 20 (boot h))) = 5%nat /\
  (forall w c c', wf c -> main_step w c = Next c' ->
                  wf c' /\ (measure c' < measure c)%nat) /\
  (forall w c fuel, wf c -> (measure c <= fuel)%nat ->
                    forall c', run w fuel c <> Running c').
Proof.
  intros Hw.
  split; [ apply main_wide; assumption | ].
  split.
  { intros fuel Hf.
    apply (run_more_fuel (int_bits p) 20 fuel); [ | assumption ].
    apply run_wide; assumption. }
  split.
  { intros fuel Hf.
    assert (H19 : exists c19, after 5 19 (boot h) = Some c19)
      by (eexists; vm_compute; reflexivity).
    destruct H19 as [c19 H19].
    apply (after_wide (int_bits p) 19 h c19 Hw) in H19.
    destruct (after_fewer (int_bits p) 19 fuel (boot h) c19 H19) as [d Hd];
      [ lia | ].
    exists d. apply run_less_fuel. assumption. }
  split.
  { rewrite (trace_wide (int_bits p) h Hw). vm_compute. reflexivity. }
  split.
  { intros w c c'. apply step_decreases. }
  intros w c fuel. apply run_within_measure.
Qed.

Lemma main_terminates_witness :
  5 <= int_bits posix32 /\
  main posix32 piped_input = Exited 0 (final piped_input) /\
  (forall fuel, (20 <= fuel)%nat ->
                run (int_bits posix32) fuel (boot piped_input) =
                Exited 0 (final piped_input)) /\
  (forall fuel, (fuel < 20)%nat ->
                exists c,
                  run (int_bits posix32) fuel (boot piped_input) = Running c) /\
  List.length
    (filter (fun c => label_eqb (pc c) L15)
       (trace (int_bits posix32) 20 (boot piped_input))) = 5%nat /\
  (forall w c c', wf c -> main_step w c = Next c' ->
                  wf c' /\ (measure c' < measure c)%nat) /\
  (forall w c fuel, wf c -> (measure c <= fuel)%nat ->
                    forall c', run w fuel c <> Running c').
Proof.
  split; [ simpl; lia | ].
  apply (main_terminates posix32 piped_input). simpl; lia.
Defined.

(** C10.  Loop invariant of the summation.  For every [k] from 0 to 5 the
    execution reaches the head of the loop with the first [k] elements
    processed, and [sum] is then the sum of those [k] elements; whenever
    control stands at the head of the loop, [sum] is the sum of the elements
    before the iterator.  As all elements are positive, these sums are never
    negative and grow strictly from one iteration to the next. *)
Theorem loop_invariant (w : Z) (h : host) (k : nat) :
  5 <= w -> (k <= 5)%nat ->
  (exists c,
     after w (4 + 2 * k) (boot h) = Some c /\ pc c = L14_cond /\
     it_begin c = k /\ numbers c = Some [1; 2; 3; 4; 5] /\
     sum c = Some (total (firstn k [1; 2; 3; 4; 5]))) /\
  0 <= total (firstn k [1; 2; 3; 4; 5]) /\
  ((k < 5)%nat ->
   total (firstn k [1; 2; 3; 4; 5]) < total (firstn (S k) [1; 2; 3; 4; 5])) /\
  (forall n c, after w n (boot h) = Some c -> pc c = L14_cond ->
     (it_begin c <= 5)%nat /\ n = (4 + 2 * it_begin c)%nat /\
     sum c = Some (total (firstn (it_begin c) [1; 2; 3; 4; 5]))).
Proof.
  intros Hw Hk. repeat split.
  - do 6 (destruct k as [ | k];
          [ eexists; split;
            [ apply (after_wide w _ h _ Hw); vm_compute; reflexivity
            | repeat split ] | ]).
    lia.
  - apply total_firstn_nonneg. apply numbers_positive.
  - intros Hlt. apply total_firstn_increasing;
      [ apply numbers_positive | exact Hlt ].
  - destruct (Inv_reachable w h n c H) as (_ & _ & _ & _ & Hl).
    unfold loop_inv in Hl. rewrite H0 in Hl. apply Hl.
  - destruct (Inv_reachable w h n c H) as (Hn & _).
    unfold phase in Hn. rewrite H0 in Hn. symmetry; assumption.
  - destruct (Inv_reachable w h n c H) as (_ & _ & _ & Hs & _).
    unfold sum_inv in Hs. rewrite H0 in Hs. exact Hs.
Qed.

Lemma loop_invariant_witness :
  5 <= 16 /\ (3 <= 5)%nat /\
  (exists c,
     after 16 (4 + 2 * 3) (boot no_input) = Some c /\ pc c = L14_cond /\
     it_begin c = 3%nat /\ numbers c = Some [1; 2; 3; 4; 5] /\
     sum c = Some (total (firstn 3 [1; 2; 3; 4; 5]))) /\
  0 <= total (firstn 3 [1; 2; 3; 4; 5]) /\
  ((3 < 5)%nat ->
   total (firstn 3 [1; 2; 3; 4; 5]) < total (firstn 4 [1; 2; 3; 4; 5])) /\
  (forall n c, after 16 n (boot no_input) = Some c -> pc c = L14_cond ->
     (it_begin c <= 5)%nat /\ n = (4 + 2 * it_begin c)%nat /\
     sum c = Some (total (firstn (it_begin c) [1; 2; 3; 4; 5]))).
Proof.
  split; [ lia | ]. split; [ lia | ].
  apply (loop_invariant 16 no_input 3); lia.
Defined.

(** * Further properties of the statements of [main] *)

(** ** Helper lemmas on strings, streams and traces *)

Lemma string_app_assoc (a b c : string) :
  ((a ++ b) ++ c = a ++ (b ++ c))%string.
Proof. induction a as [ | x a IH]; simpl; [ | rewrite IH ]; reflexivity. Qed.

Lemma string_app_nil_r (a : string) : (a ++ "" = a)%string.
Proof. induction a as [ | x a IH]; simpl; [ | rewrite IH ]; reflexivity. Qed.

Lemma written_insert (o : ostream) (i : item) :
  written (o << i) = (written o ++ text_of i)%string.
Proof.
  unfold written. destruct i; simpl;
    rewrite ?string_app_nil_r, ?string_app_assoc; reflexivity.
Qed.

Lemma pending_endl (o : ostream) : pending (o << Endl) = ""%string.
Proof. reflexivity. Qed.

Lemma trace_S (w : Z) (n : nat) (c : config) :
  trace w (S n) c =
  c :: match main_step w c with
       | Next c' => trace w n c'
       | _ => []
       end.
Proof. reflexivity. Qed.

Lemma fetched_skip (c : config) (t : list config) :
  pc c <> L15 -> fetched (c :: t) = fetched t.
Proof. intros H. simpl. destruct (pc c); try reflexivity. congruence. Qed.

Lemma fetched_body (c : config) (t : list config) (x : Z) :
  pc c = L15 -> num c = Some x -> fetched (c :: t) = x :: fetched t.
Proof. intros Hpc Hx. simpl. rewrite Hpc, Hx. reflexivity. Qed.

Lemma skipn_nth_error (v : list Z) (k : nat) (x : Z) :
  nth_error v k = Some x -> skipn k v = x :: skipn (S k) v.
Proof.
  revert k. induction v as [ | y v IH]; intros k H.
  - destruct k; discriminate.
  - destruct k as [ | k].
    + inversion H. reflexivity.
    + simpl in H. apply (IH k H).
Qed.

Lemma run_crashed_more_fuel (w : Z) (n m : nat) (c : config) :
  run w n c = Crashed -> (n <= m)%nat -> run w m c = Crashed.
Proof.
  revert m c. induction n as [ | n IH]; intros m c H Hm.
  - discriminate.
  - destruct m as [ | m]; [ lia | ].
    simpl in *. destruct (main_step w c); try assumption.
    apply IH; [ assumption | lia ].
Qed.

(** The two statements of one iteration, from the head of the loop. *)
Lemma iteration_steps (w : Z) (v : list Z) (c : config) (s x : Z) :
  pc c = L14_cond -> numbers c = Some v ->
  it_end c = List.length v -> nth_error v (it_begin c) = Some x ->
  sum c = Some s ->
  main_step w c = Next (goto L15 (set_num (Some x) c)) /\
  main_step w (goto L15 (set_num (Some x) c)) =
  match Int.add w s x with
  | Some s' =>
      Next (goto L14_cond
              (set_num None
                 (set_iterators (S (it_begin c)) (it_end c)
                    (set_sum (Some s') (goto L15 (set_num (Some x) c))))))
  | None => Undefined
  end.
Proof.
  intros Hpc Hv He Hx Hs. split.
  - unfold main_step. rewrite Hpc, Hv, Hx.
    destruct (Nat.eqb (it_begin c) (it_end c)) eqn:E; [ | reflexivity ].
    apply Nat.eqb_eq in E.
    assert (nth_error v (it_begin c) = None)
      by (apply nth_error_None; lia).
    congruence.
  - unfold main_step. cbn [pc goto sum num set_num]. rewrite Hs.
    reflexivity.
Qed.

Lemma total_cons (x : Z) (l : list Z) : total (x :: l) = x + total l.
Proof. reflexivity. Qed.

Lemma loop_fetched (w : Z) (v : list Z) :
  forall (r k : nat) (c : config) (s : Z),
    (k + r = List.length v)%nat ->
    pc c = L14_cond -> numbers c = Some v ->
    it_begin c = k -> it_end c = List.length v -> sum c = Some s ->
    (forall j, (1 <= j <= r)%nat ->
               Int.fits w (s + total (firstn j (skipn k v))) = true) ->
    fetched (trace w (2 * r + 1) c) = skipn k v.
Proof.
  induction r as [ | r IH]; intros k c s Hk Hpc Hv Hb He Hs Hfit.
  - replace k with (List.length v) in * by lia.
    rewrite skipn_all. change (2 * 0 + 1)%nat with 1%nat.
    rewrite trace_S. unfold main_step at 1. rewrite Hpc, Hb, He.
    rewrite Nat.eqb_refl. cbn [trace].
    rewrite fetched_skip by (rewrite Hpc; discriminate).
    rewrite fetched_skip by (simpl; discriminate). reflexivity.
  - destruct (nth_error v k) as [x | ] eqn:Ex;
      [ | apply nth_error_None in Ex; lia ].
    pose proof (skipn_nth_error v k x Ex) as Hsk.
    assert (Hadd : Int.add w s x = Some (s + x)).
    { unfold Int.add. pose proof (Hfit 1%nat ltac:(lia)) as H1.
      rewrite Hsk in H1. cbn [firstn] in H1.
      rewrite total_cons in H1. change (total []) with 0 in H1.
      rewrite Z.add_0_r in H1. rewrite H1. reflexivity. }
    rewrite <- Hb in Ex.
    destruct (iteration_steps w v c s x Hpc Hv He Ex Hs) as [E1 E2].
    rewrite Hadd in E2.
    replace (2 * S r + 1)%nat with (S (S (2 * r + 1))) by lia.
    rewrite trace_S, E1, trace_S, E2.
    rewrite fetched_skip by (rewrite Hpc; discriminate).
    rewrite (fetched_body _ _ x) by reflexivity.
    rewrite Hsk. f_equal.
    apply (IH (S k) _ (s + x)); try reflexivity; try assumption; try lia.
    + simpl. rewrite Hb. reflexivity.
    + intros j Hj. pose proof (Hfit (S j) ltac:(lia)) as Hj'.
      rewrite Hsk in Hj'. cbn [firstn] in Hj'. rewrite total_cons in Hj'.
      rewrite Z.add_assoc in Hj'. exact Hj'.
Qed.

Lemma loop_overflow (w : Z) (v : list Z) :
  forall (r k : nat) (c : config) (s : Z),
    (k + r = List.length v)%nat ->
    pc c = L14_cond -> numbers c = Some v ->
    it_begin c = k -> it_end c = List.length v -> sum c = Some s ->
    forall j, (1 <= j <= r)%nat ->
              Int.fits w (s + total (firstn j (skipn k v))) = false ->
              run w (2 * r + 1) c = Crashed.
Proof.
  induction r as [ | r IH]; intros k c s Hk Hpc Hv Hb He Hs j Hj Hbad.
  - lia.
  - destruct (nth_error v k) as [x | ] eqn:Ex;
      [ | apply nth_error_None in Ex; lia ].
    pose proof (skipn_nth_error v k x Ex) as Hsk.
    rewrite <- Hb in Ex.
    destruct (iteration_steps w v c s x Hpc Hv He Ex Hs) as [E1 E2].
    replace (2 * S r + 1)%nat with (S (S (2 * r + 1))) by lia.
    cbn [run]. rewrite E1, E2.
    destruct (Int.add w s x) as [s' | ] eqn:Hadd; [ | reflexivity ].
    pose proof (Int_add_exact w s x s' Hadd) as Hs'. subst s'.
    unfold Int.add in Hadd.
    destruct (Int.fits w (s + x)) eqn:Hf; [ | discriminate ].
    destruct j as [ | j]; [ lia | ].
    rewrite Hsk in Hbad. cbn [firstn] in Hbad. rewrite total_cons in Hbad.
    rewrite Z.add_assoc in Hbad.
    destruct j as [ | j].
    + cbn [firstn] in Hbad. change (total []) with 0 in Hbad.
      rewrite Z.add_0_r in Hbad. congruence.
    + apply (IH (S k) _ (s + x)) with (j := S j);
        try reflexivity; try assumption; try lia.
      simpl. rewrite Hb. reflexivity.
Qed.

(** Entering the loop at line 14. *)
Lemma enter_loop (w : Z) (v : list Z) (c : config) :
  pc c = L14 -> numbers c = Some v ->
  main_step w c = Next (goto L14_cond (set_iterators 0 (List.length v) c)).
Proof. intros Hpc Hv. unfold main_step. rewrite Hpc, Hv. reflexivity. Qed.

(** ** The range-based [for], whatever the vector holds *)

(** X1.  Lines 14 to 16 add every element of the vector to [sum]: from any
    configuration at line 14, with any vector and any starting value of
    [sum], if no partial sum overflows then control reaches line 18 after
    two statements for each element and two more, [sum] holds the starting
    value plus the exact sum of the elements, and the vector, [message], the
    output stream, standard input and the command line are as before. *)
Theorem range_for_adds_every_element
    (w : Z) (v : list Z) (s0 : Z) (c : config) :
  pc c = L14 -> numbers c = Some v -> sum c = Some s0 ->
  (forall j, (j <= List.length v)%nat ->
             Int.fits w (s0 + total (firstn j v)) = true) ->
  exists c',
    after w (2 * List.length v + 2) c = Some c' /\ pc c' = L18 /\
    sum c' = Some (s0 + total v) /\ numbers c' = Some v /\
    message c' = message c /\ cout c' = cout c /\
    cin c' = cin c /\ args c' = args c.
Proof.
  intros Hpc Hv Hs Hfit.
  destruct (range_for_total w v s0 c Hpc Hv Hs Hfit)
    as (c' & Hc' & H1 & H2 & H3 & H4 & H5).
  destruct (after_frame_input w _ c c' Hc') as [H6 H7].
  exists c'. repeat split; assumption.
Qed.

Lemma range_for_adds_every_element_witness :
  exists c',
    after 8 (2 * List.length [100; -30; 57] + 2)
      (at_line L14 (Some [100; -30; 57]) (Some 0) None) = Some c' /\
    pc c' = L18 /\
    sum c' = Some (0 + total [100; -30; 57]) /\
    numbers c' = Some [100; -30; 57] /\
    message c' = message (at_line L14 (Some [100; -30; 57]) (Some 0) None) /\
    cout c' = cout (at_line L14 (Some [100; -30; 57]) (Some 0) None) /\
    cin c' = cin (at_line L14 (Some [100; -30; 57]) (Some 0) None) /\
    args c' = args (at_line L14 (Some [100; -30; 57]) (Some 0) None).
Proof.
  apply (range_for_adds_every_element 8 [100; -30; 57] 0
           (at_line L14 (Some [100; -30; 57]) (Some 0) None));
    try reflexivity.
  intros j Hj. simpl in Hj.
  do 4 (destruct j as [ | j]; [ reflexivity | ]). lia.
Defined.

(** X2.  The loop body meets every element of the vector exactly once, in
    index order: from any configuration at line 14, if no partial sum
    overflows, the values bound to [num] during the loop are the elements of
    the vector, first to last.  For an empty vector the body never runs. *)
Theorem range_for_visits_in_order
    (w : Z) (v : list Z) (s0 : Z) (c : config) :
  pc c = L14 -> numbers c = Some v -> sum c = Some s0 ->
  (forall j, (j <= List.length v)%nat ->
             Int.fits w (s0 + total (firstn j v)) = true) ->
  fetched (trace w (2 * List.length v + 2) c) = v.
Proof.
  intros Hpc Hv Hs Hfit.
  replace (2 * List.length v + 2)%nat
    with (S (2 * List.length v + 1)) by lia.
  rewrite trace_S, (enter_loop w v c Hpc Hv).
  rewrite fetched_skip by (rewrite Hpc; discriminate).
  apply (loop_fetched w v (List.length v) 0 _ s0);
    try reflexivity; try assumption.
  intros j Hj. apply Hfit. lia.
Qed.

Lemma range_for_visits_in_order_witness :
  fetched
    (trace 8 (2 * List.length [100; -30; 57] + 2)
       (at_line L14 (Some [100; -30; 57]) (Some 0) None)) =
  [100; -30; 57].
Proof.
  apply (range_for_visits_in_order 8 [100; -30; 57] 0
           (at_line L14 (Some [100; -30; 57]) (Some 0) None));
    try reflexivity.
  intros j Hj. simpl in Hj.
  do 4 (destruct j as [ | j]; [ reflexivity | ]). lia.
Defined.

(** X3.  Overflow is undefined behaviour, and the loop runs into it when a
    partial sum does not fit, even if the final sum would: from any
    configuration at line 14, if
    the starting value plus the sum of the first [j] elements, for some [j]
    from 1 to the length of the vector, is not representable in [int], the
    execution has no defined result, whatever the fuel beyond two statements
    for each element and two more. *)
Theorem range_for_overflow_is_undefined
    (w : Z) (v : list Z) (s0 : Z) (c : config) (j fuel : nat) :
  pc c = L14 -> numbers c = Some v -> sum c = Some s0 ->
  (1 <= j <= List.length v)%nat ->
  Int.fits w (s0 + total (firstn j v)) = false ->
  (2 * List.length v + 2 <= fuel)%nat ->
  run w fuel c = Crashed.
Proof.
  intros Hpc Hv Hs Hj Hbad Hfuel.
  apply (run_crashed_more_fuel w (2 * List.length v + 2)); [ | assumption ].
  replace (2 * List.length v + 2)%nat
    with (S (2 * List.length v + 1)) by lia.
  cbn [run]. rewrite (enter_loop w v c Hpc Hv).
  apply (loop_overflow w v (List.length v) 0 _ s0) with (j := j);
    try reflexivity; try assumption.
Qed.

Lemma range_for_overflow_is_undefined_witness :
  run 8 10 (at_line L14 (Some [100; 30; -57]) (Some 0) None) = Crashed.
Proof.
  apply (range_for_overflow_is_undefined 8 [100; 30; -57] 0
           (at_line L14 (Some [100; 30; -57]) (Some 0) None) 2 10);
    try reflexivity; simpl; lia.
Defined.

(** ** The output statements, whatever the locals hold *)

(** X4.  Line 18 prints whatever [sum] holds: from any configuration at
    line 18 the stream gains exactly [Sum of numbers: ], the decimal numeral
    of [sum] and a newline, and is flushed; the numeral reads back as the
    value of [sum], negative values and zero included; no local changes. *)
Theorem line_18_prints_sum (w : Z) (c : config) (s : Z) :
  pc c = L18 -> sum c = Some s ->
  exists c',
    main_step w c = Next c' /\ pc c' = L21 /\
    written (cout c') =
      (written (cout c) ++
       "Sum of numbers: " ++ show_int s ++ String LF "")%string /\
    pending (cout c') = ""%string /\
    read_int (show_int s) = Some s /\
    sum c' = Some s /\ numbers c' = numbers c /\ message c' = message c.
Proof.
  intros Hpc Hs.
  exists (goto L21
            (set_cout (cout c << Str "Sum of numbers: " << Int s << Endl) c)).
  split; [ unfold main_step; rewrite Hpc, Hs; reflexivity | ].
  split; [ reflexivity | ].
  split.
  { cbn [cout goto set_cout]. rewrite !written_insert.
    cbn [text_of]. rewrite !string_app_assoc. reflexivity. }
  split; [ reflexivity | ].
  split; [ apply show_int_read | ].
  repeat split. assumption.
Qed.

Lemma line_18_prints_sum_witness :
  exists c',
    main_step 16 (at_line L18 (Some [4; -11]) (Some (-7)) None) = Next c' /\
    pc c' = L21 /\
    written (cout c') =
      (written (cout (at_line L18 (Some [4; -11]) (Some (-7)) None)) ++
       "Sum of numbers: " ++ show_int (-7) ++ String LF "")%string /\
    pending (cout c') = ""%string /\
    read_int (show_int (-7)) = Some (-7) /\
    sum c' = Some (-7) /\
    numbers c' = numbers (at_line L18 (Some [4; -11]) (Some (-7)) None) /\
    message c' = message (at_line L18 (Some [4; -11]) (Some (-7)) None).
Proof.
  apply (line_18_prints_sum 16
           (at_line L18 (Some [4; -11]) (Some (-7)) None) (-7));
    reflexivity.
Defined.

(** X5.  Lines 22 and 23 print whatever [message] holds: from any
    configuration at line 22, two statements later control is at line 25,
    the stream has gained [Message: ], the string, a newline, [Length: ],
    the decimal numeral of the number of code units of the string and a
    newline; the numeral reads back as that number, so the printed length
    always agrees with the printed string; [message] is unchanged. *)
Theorem lines_22_23_print_message (w : Z) (c : config) (m : string) :
  pc c = L22 -> message c = Some m ->
  exists c',
    after w 2 c = Some c' /\ pc c' = L25 /\ message c' = Some m /\
    written (cout c') =
      (written (cout c) ++
       "Message: " ++ m ++ String LF "" ++
       "Length: " ++ show_size (String.length m) ++ String LF "")%string /\
    pending (cout c') = ""%string /\
    read_size (show_size (String.length m)) = Some (String.length m).
Proof.
  intros Hpc Hm.
  set (c23 := goto L23
                (set_cout (cout c << Str "Message: " << Str m << Endl) c)).
  assert (E1 : main_step w c = Next c23)
    by (unfold main_step; rewrite Hpc, Hm; reflexivity).
  assert (Hm23 : message c23 = Some m) by exact Hm.
  set (c25 := goto L25
                (set_cout
                   (cout c23 << Str "Length: " << Size (String.length m)
                             << Endl) c23)).
  assert (E2 : main_step w c23 = Next c25).
  { unfold main_step. change (pc c23) with L23. rewrite Hm23. reflexivity. }
  exists c25.
  split; [ cbn [after]; rewrite E1, E2; reflexivity | ].
  split; [ reflexivity | ].
  split; [ exact Hm | ].
  split.
  { change (cout c25)
      with (cout c << Str "Message: " << Str m << Endl
                   << Str "Length: " << Size (String.length m) << Endl).
    rewrite !written_insert. cbn [text_of].
    rewrite !string_app_assoc. reflexivity. }
  split; [ reflexivity | apply show_size_read ].
Qed.

Lemma lines_22_23_print_message_witness :
  exists c',
    after 16 2 (at_line L22 None None (Some ""%string)) = Some c' /\
    pc c' = L25 /\ message c' = Some ""%string /\
    written (cout c') =
      (written (cout (at_line L22 None None (Some ""%string))) ++
       "Message: " ++ "" ++ String LF "" ++
       "Length: " ++ show_size (String.length "") ++ String LF "")%string /\
    pending (cout c') = ""%string /\
    read_size (show_size (String.length "")) = Some (String.length "").
Proof.
  apply (lines_22_23_print_message 16
           (at_line L22 None None (Some ""%string)) ""%string);
    reflexivity.
Defined.

(** ** The output stream along an execution *)




Lemma step_silent (w : Z) (c c' : config) :
  main_step w c = Next c' -> silent (pc c) = true -> cout c' = cout c.
Proof. intros H Hs. step_cases c H; reflexivity. Qed.

Lemma step_flushes (w : Z) (c c' : config) :
  main_step w c = Next c' -> silent (pc c) = false ->
  pending (cout c') = ""%string.
Proof. intros H Hs. step_cases c H; reflexivity. Qed.



(** X7.  Every line is flushed as soon as it is written: each statement that
    uses the stream leaves its buffer empty, so an execution that starts with
    an empty buffer has an empty buffer between any two statements, and what
    the host has received is everything written so far. *)
Theorem buffer_empty_between_statements (w : Z) (n : nat) (c c' : config) :
  after w n c = Some c' -> pending (cout c) = ""%string ->
  pending (cout c') = ""%string /\
  delivered (cout c') = written (cout c') /\
  (forall d d', main_step w d = Next d' -> silent (pc d) = false ->
                pending (cout d') = ""%string).
Proof.
  intros H Hp.
  assert (Hc' : pending (cout c') = ""%string).
  { revert c H Hp. induction n as [ | n IH]; intros c H Hp.
    - inversion H; subst. assumption.
    - simpl in H. destruct (main_step w c) as [c1 | | ] eqn:E;
        try discriminate.
      apply (IH c1 H).
      destruct (silent (pc c)) eqn:Es.
      + rewrite (step_silent w c c1 E Es). assumption.
      + apply (step_flushes w c c1 E Es). }
  split; [ assumption | ].
  split; [ | intros d d'; apply step_flushes ].
  unfold written. rewrite Hc', string_app_nil_r. reflexivity.
Qed.

Lemma buffer_empty_between_statements_witness :
  exists c',
    after 32 16 (boot piped_input) = Some c' /\
    pending (cout c') = ""%string /\
    delivered (cout c') = written (cout c') /\
    (forall d d', main_step 32 d = Next d' -> silent (pc d) = false ->
                  pending (cout d') = ""%string).
Proof.
  eexists. split; [ vm_compute; reflexivity | ].
  apply (buffer_empty_between_statements 32 16 (boot piped_input));
    vm_compute; reflexivity.
Defined.

(** ** Portability across widths of [int] *)

(** X8.  The width of [int] matters only through overflow: an execution
    that finishes on a platform finishes with the same exit status and in
    the same final configuration, so with the same output, on every platform
    whose [int] is at least as wide, from any configuration and with any
    fuel. *)
Theorem wider_int_same_result
    (w w' : Z) (fuel : nat) (c : config) (s : Z) (c' : config) :
  w <= w' -> run w fuel c = Exited s c' -> run w' fuel c = Exited s c'.
Proof. apply run_mono. Qed.

Lemma wider_int_same_result_witness :
  run 64 12 (at_line L13 (Some [100; 27]) None (Some "kept"%string)) =
  Exited 0
    {| pc := L25; numbers := None; sum := None; message := None;
       it_begin := 2; it_end := 2; num := None;
       cout :=
         {| pending := "";
            delivered :=
              unlines (String LF "")
                ["Sum of numbers: 127"; "Message: C++ is powerful";
                 "Length: 15"]%string |};
       cin := None; args := [] |}.
Proof.
  apply (wider_int_same_result 8 64 12
           (at_line L13 (Some [100; 27]) None (Some "kept"%string)) 0).
  - lia.
  - vm_compute. reflexivity.
Defined.

(** ** The only undefined behaviour is overflow *)

(** X9.  On any platform, however narrow its [int], an execution of the
    program can only go wrong in the addition of line 15: it never reads the
    vector outside its bounds and never uses a local outside its lifetime.
    If a configuration of the execution has no defined successor, control is
    at line 15 and the sum of [sum] and [num] is not representable. *)
Theorem only_overflow_is_undefined
    (w : Z) (h : host) (n : nat) (c : config) :
  after w n (boot h) = Some c -> main_step w c = Undefined ->
  pc c = L15 /\
  exists s x, sum c = Some s /\ num c = Some x /\
              nth_error [1; 2; 3; 4; 5] (it_begin c) = Some x /\
              Int.fits w (s + x) = false.
Proof.
  intros Hc Hu.
  destruct (Inv_reachable w h n c Hc) as (_ & Hv & Hm & Hs & Hl).
  unfold numbers_inv, message_inv, sum_inv, loop_inv, main_step in *.
  destruct (pc c) eqn:Hpc; try discriminate;
    try (rewrite Hv in Hu; discriminate);
    try (rewrite Hs in Hu; discriminate);
    try (rewrite Hm in Hu; discriminate).
  - destruct Hl as [He Hb]. rewrite Hv, He in Hu.
    destruct (Nat.eqb (it_begin c) 5) eqn:E; [ discriminate | ].
    apply Nat.eqb_neq in E.
    destruct (nth_error [1; 2; 3; 4; 5] (it_begin c)) eqn:Ex;
      [ discriminate | ].
    apply nth_error_None in Ex. simpl in Ex. lia.
  - destruct Hl as (He & Hb & Hx). split; [ reflexivity | ].
    destruct (nth_error [1; 2; 3; 4; 5] (it_begin c)) as [x | ] eqn:Ex;
      [ | apply nth_error_None in Ex; simpl in Ex; lia ].
    rewrite Hs, Hx in Hu. unfold Int.add in Hu.
    exists (partial (it_begin c)), x.
    destruct (Int.fits w (partial (it_begin c) + x)); [ discriminate | ].
    repeat split; assumption.
Qed.

Lemma only_overflow_is_undefined_witness :
  exists c,
    after 4 11 (boot no_input) = Some c /\
    main_step 4 c = Undefined /\
    pc c = L15 /\
    exists s x, sum c = Some s /\ num c = Some x /\
                nth_error [1; 2; 3; 4; 5] (it_begin c) = Some x /\
                Int.fits 4 (s + x) = false.
Proof.
  eexists. split; [ vm_compute; reflexivity | ].
  split; [ vm_compute; reflexivity | ].
  apply (only_overflow_is_undefined 4 no_input 11);
    vm_compute; reflexivity.
Defined.
